(** * Verification of the IPO Analytics reconciliation client (src/src/App.jsx)

    Shallow embedding of the [ReconcileApp] React component: the JSON values it
    receives, its component state, the [upload] operation with its
    XMLHttpRequest handlers, the warm-up probe, the status summary, the
    paginated detail view and the CSV export.

    Modelling conventions:
    - JSON numbers are held as their exact decimal values ([Q]); integers
      (byte counts, HTTP status codes, page numbers) are [Z].  Where the code
      divides, the arithmetic is that of IEEE doubles ([spec_float]): the
      progress percentage and the bar percentages ([pct_dbl]).  [pct] and
      [summary_rows] are the same percentages over exact rationals.
    - Strings are 8-bit ([String.string]).
    - A React state setter is modelled as an immediate functional update of
      the state record; every handler here only writes state, so batching does
      not change the final state. *)

From Stdlib Require Import String Ascii List ZArith QArith Qround Qminmax Lia
  Sorted Permutation Bool.
From Stdlib Require Import Numbers.DecimalString Lqa.
From Stdlib Require Floats.SpecFloat.
Import ListNotations.
Set Warnings "-register-all".
Open Scope string_scope.

(* ------------------------------------------------------------------------- *)
(** ** JSON values and the parts of JavaScript semantics the component uses *)

Module Js.

Inductive json : Type :=
| JNull
| JBool (b : bool)
| JNum (q : Q)
| JStr (s : string)
| JArr (xs : list json)
| JObj (fs : list (string * json)).

(** JavaScript truthiness ([NaN] and [undefined] are not values of [json]). *)
Definition truthy (v : json) : bool :=
  match v with
  | JNull => false
  | JBool b => b
  | JNum q => negb (Qeq_bool q 0)
  | JStr s => negb (String.eqb s "")
  | JArr _ | JObj _ => true
  end.

(** Property lookup in an object produced by [JSON.parse]: with duplicate
    keys the last one wins. *)
Fixpoint obj_get (fs : list (string * json)) (k : string) : option json :=
  match fs with
  | [] => None
  | (k', v) :: rest =>
      match obj_get rest k with
      | Some v' => Some v'
      | None => if String.eqb k k' then Some v else None
      end
  end.

(** The members of [Object.prototype], which every non-null value inherits. *)
Definition object_prototype_keys : list string :=
  ["constructor"; "__proto__"; "toString"; "toLocaleString"; "valueOf";
   "hasOwnProperty"; "isPrototypeOf"; "propertyIsEnumerable";
   "__defineGetter__"; "__defineSetter__"; "__lookupGetter__"; "__lookupSetter__"].

Definition inherited (k : string) : bool :=
  existsb (String.eqb k) object_prototype_keys.

(** The value of an inherited member (a function, or [Object.prototype]
    itself for [__proto__]) is not a JSON value; it stands here as an opaque
    object: truthy, not an array. *)
Definition proto_member : json := JObj [].

(** Member access [v[k]] / [v.k]: [None] is the TypeError raised on [null],
    [Some None] is [undefined].  An own property of an object comes first,
    then the members of [Object.prototype]; array indices, ["length"] and
    the members of the other prototypes (Array, String, ...) read as
    [undefined]. *)
Definition member (v : json) (k : string) : option (option json) :=
  match v with
  | JNull => None
  | JObj fs =>
      match obj_get fs k with
      | Some x => Some (Some x)
      | None => Some (if inherited k then Some proto_member else None)
      end
  | _ => Some (if inherited k then Some proto_member else None)
  end.

(** [Math.round]: round half up. *)
Definition round (q : Q) : Z := Qfloor (q + (1 # 2)).

(** *** Double precision

    JavaScript numbers are IEEE 754 binary64 values; the arithmetic of
    [spec_float] with 53 bits of precision and exponent bound 1024 rounds to
    nearest, ties to even, as JavaScript does. *)

Definition prec : Z := 53.
Definition emax : Z := 1024.

Definition double := SpecFloat.spec_float.

(** The double nearest to an integer. *)
Definition dbl_of_Z (z : Z) : double := SpecFloat.binary_normalize prec emax z 0 false.

(** The double nearest to a JSON number [n / d]: the correctly rounded
    quotient of [n] and [d], which are read exactly when they do not exceed
    [2^53] (integer counts and byte sizes are). *)
Definition dbl_of_Q (q : Q) : double :=
  SpecFloat.SFdiv prec emax (dbl_of_Z (Qnum q)) (dbl_of_Z (Zpos (Qden q))).

Definition dbl_div (x y : double) : double := SpecFloat.SFdiv prec emax x y.
Definition dbl_mul (x y : double) : double := SpecFloat.SFmul prec emax x y.

(** The exact value of a finite double; [None] for [NaN] and the infinities. *)
Definition dbl_value (x : double) : option Q :=
  match x with
  | SpecFloat.S754_zero _ => Some 0
  | SpecFloat.S754_finite sg m e =>
      let v := if (0 <=? e)%Z then inject_Z (Zpos m * 2 ^ e)
               else Zpos m # Z.to_pos (2 ^ (- e)) in
      Some (if sg then - v else v)
  | _ => None
  end.

(** [Math.round] of a double: the integer nearest to its exact value, ties
    up; [None] for [NaN] and the infinities, which it returns unchanged. *)
Definition math_round (x : double) : option Z := option_map round (dbl_value x).

(** [Math.ceil]. *)
Definition ceil (q : Q) : Z := Qceiling q.

Definition Z_to_string (z : Z) : string := NilEmpty.string_of_int (Z.to_int z).

Definition nl : string := String "010"%char EmptyString.
Definition dq : ascii := "034"%char.

(** [xs.join(sep)] on strings. *)
Fixpoint join (sep : string) (xs : list string) : string :=
  match xs with
  | [] => ""
  | [x] => x
  | x :: rest => x ++ sep ++ join sep rest
  end.

(** [s.startsWith(p)]. *)
Fixpoint starts_with (p s : string) : bool :=
  match p, s with
  | EmptyString, _ => true
  | String _ _, EmptyString => false
  | String a p', String b s' => Ascii.eqb a b && starts_with p' s'
  end.

(** [s.replace(pat, rep)] with a string pattern: the first occurrence of
    [pat] is replaced by [rep]. *)
Fixpoint replace (s pat rep : string) : string :=
  if starts_with pat s then rep ++ substring (String.length pat) (String.length s) s
  else match s with
       | EmptyString => EmptyString
       | String c s' => String c (replace s' pat rep)
       end.

(** *** [JSON.parse] (ECMA-404 grammar over 8-bit text)

    Numbers are read exactly into [Q]; [\uXXXX] escapes are decoded for code
    points below 256 and rejected otherwise (8-bit strings). *)

Definition is_ws (c : ascii) : bool :=
  Ascii.eqb c " " || Ascii.eqb c "009"%char || Ascii.eqb c "010"%char
  || Ascii.eqb c "013"%char.

Fixpoint skip_ws (s : string) : string :=
  match s with
  | String c s' => if is_ws c then skip_ws s' else s
  | EmptyString => EmptyString
  end.

Definition digit_val (c : ascii) : option Z :=
  let n := Z.of_nat (nat_of_ascii c) in
  if (48 <=? n)%Z && (n <=? 57)%Z then Some (n - 48)%Z else None.

Definition hex_val (c : ascii) : option Z :=
  let n := Z.of_nat (nat_of_ascii c) in
  if (48 <=? n)%Z && (n <=? 57)%Z then Some (n - 48)%Z
  else if (65 <=? n)%Z && (n <=? 70)%Z then Some (n - 55)%Z
  else if (97 <=? n)%Z && (n <=? 102)%Z then Some (n - 87)%Z
  else None.

(** Maximal run of decimal digits: (digits, their count, rest). *)
Fixpoint digits (s : string) (acc : Z) (cnt : nat) : Z * nat * string :=
  match s with
  | String c s' =>
      match digit_val c with
      | Some d => digits s' (10 * acc + d)%Z (S cnt)
      | None => (acc, cnt, s)
      end
  | EmptyString => (acc, cnt, s)
  end.

Definition simple_escape (e : ascii) : option ascii :=
  if Ascii.eqb e dq then Some dq
  else if Ascii.eqb e "\" then Some "\"%char
  else if Ascii.eqb e "/" then Some "/"%char
  else if Ascii.eqb e "b" then Some "008"%char
  else if Ascii.eqb e "f" then Some "012"%char
  else if Ascii.eqb e "n" then Some "010"%char
  else if Ascii.eqb e "r" then Some "013"%char
  else if Ascii.eqb e "t" then Some "009"%char
  else None.

(** Body of a string literal after its opening quote. *)
Fixpoint parse_str (s : string) : option (string * string) :=
  match s with
  | EmptyString => None
  | String c s' =>
      if Ascii.eqb c dq then Some (EmptyString, s')
      else if Ascii.eqb c "\" then
        match s' with
        | String e s'' =>
            match simple_escape e with
            | Some ch =>
                match parse_str s'' with
                | Some (t, r) => Some (String ch t, r)
                | None => None
                end
            | None =>
                if Ascii.eqb e "u" then
                  match s'' with
                  | String h1 (String h2 (String h3 (String h4 r0))) =>
                      match hex_val h1, hex_val h2, hex_val h3, hex_val h4 with
                      | Some a, Some b, Some c3, Some d =>
                          let code := (4096 * a + 256 * b + 16 * c3 + d)%Z in
                          if (code <? 256)%Z then
                            match parse_str r0 with
                            | Some (t, r) => Some (String (ascii_of_nat (Z.to_nat code)) t, r)
                            | None => None
                            end
                          else None
                      | _, _, _, _ => None
                      end
                  | _ => None
                  end
                else None
            end
        | EmptyString => None
        end
      else if (nat_of_ascii c <? 32)%nat then None
      else
        match parse_str s' with
        | Some (t, r) => Some (String c t, r)
        | None => None
        end
  end.

Definition pow10 (n : nat) : Z := (10 ^ Z.of_nat n)%Z.

(** Number literal: [-? (0 | [1-9][0-9]* ) (.[0-9]+)? ([eE][+-]?[0-9]+)?]. *)
Definition parse_number (s : string) : option (json * string) :=
  let '(neg, s1) := match s with
                    | String c r => if Ascii.eqb c "-" then (true, r) else (false, s)
                    | EmptyString => (false, s)
                    end in
  let '(ip, icnt, s2) := digits s1 0 0 in
  let leading_zero := match s1 with
                      | String c _ => Ascii.eqb c "0"
                      | EmptyString => false
                      end in
  if (icnt =? 0)%nat || (leading_zero && negb (icnt =? 1)%nat) then None
  else
    let frac := match s2 with
                | String c r =>
                    if Ascii.eqb c "." then
                      let '(fp, fcnt, s3) := digits r 0 0 in
                      if (fcnt =? 0)%nat then None else Some (fp, fcnt, s3)
                    else Some (0%Z, 0%nat, s2)
                | EmptyString => Some (0%Z, 0%nat, s2)
                end in
    match frac with
    | None => None
    | Some (fp, fcnt, s3) =>
        let expo := match s3 with
                    | String c r =>
                        if Ascii.eqb c "e" || Ascii.eqb c "E" then
                          let '(eneg, r1) :=
                            match r with
                            | String c' r' =>
                                if Ascii.eqb c' "-" then (true, r')
                                else if Ascii.eqb c' "+" then (false, r')
                                else (false, r)
                            | EmptyString => (false, r)
                            end in
                          let '(ev, ecnt, s4) := digits r1 0 0 in
                          if (ecnt =? 0)%nat then None
                          else Some ((if eneg then - ev else ev)%Z, s4)
                        else Some (0%Z, s3)
                    | EmptyString => Some (0%Z, s3)
                    end in
        match expo with
        | None => None
        | Some (e, s4) =>
            let mant := (ip * pow10 fcnt + fp)%Z in
            let signed := if neg then (- mant)%Z else mant in
            let scale := if (e <? 0)%Z then 1 # Z.to_pos (10 ^ (- e))
                         else inject_Z (10 ^ e) in
            Some (JNum (inject_Z signed / inject_Z (pow10 fcnt) * scale), s4)
        end
    end.

Fixpoint parse_value (fuel : nat) (s : string) : option (json * string) :=
  match fuel with
  | O => None
  | S f =>
      match skip_ws s with
      | String "n" (String "u" (String "l" (String "l" r))) => Some (JNull, r)
      | String "t" (String "r" (String "u" (String "e" r))) => Some (JBool true, r)
      | String "f" (String "a" (String "l" (String "s" (String "e" r)))) =>
          Some (JBool false, r)
      | String c r =>
          if Ascii.eqb c dq then
            match parse_str r with
            | Some (t, r') => Some (JStr t, r')
            | None => None
            end
          else if Ascii.eqb c "[" then
            match skip_ws r with
            | String "]" r' => Some (JArr [], r')
            | _ => parse_elems f r []
            end
          else if Ascii.eqb c "{" then
            match skip_ws r with
            | String "}" r' => Some (JObj [], r')
            | _ => parse_members f r []
            end
          else parse_number (String c r)
      | EmptyString => None
      end
  end
(** Array elements after [\[]; [acc] holds the elements read so far, reversed. *)
with parse_elems (fuel : nat) (s : string) (acc : list json) : option (json * string) :=
  match fuel with
  | O => None
  | S f =>
      match parse_value f s with
      | Some (v, r) =>
          match skip_ws r with
          | String "," r' => parse_elems f r' (v :: acc)
          | String "]" r' => Some (JArr (rev (v :: acc)), r')
          | _ => None
          end
      | None => None
      end
  end
(** Object members after [{]. *)
with parse_members (fuel : nat) (s : string) (acc : list (string * json))
  : option (json * string) :=
  match fuel with
  | O => None
  | S f =>
      match skip_ws s with
      | String c r =>
          if Ascii.eqb c dq then
            match parse_str r with
            | Some (k, r1) =>
                match skip_ws r1 with
                | String ":" r2 =>
                    match parse_value f r2 with
                    | Some (v, r3) =>
                        match skip_ws r3 with
                        | String "," r4 => parse_members f r4 ((k, v) :: acc)
                        | String "}" r4 => Some (JObj (rev ((k, v) :: acc)), r4)
                        | _ => None
                        end
                    | None => None
                    end
                | _ => None
                end
            | None => None
            end
          else None
      | EmptyString => None
      end
  end.

(** [JSON.parse(text)]: [None] is the SyntaxError.  Each nested call either
    consumes a character or is the first call after one, so a fuel of twice
    the length plus two never runs out. *)
Definition JSON_parse (text : string) : option json :=
  match parse_value (2 * String.length text + 2) text with
  | Some (v, r) => match skip_ws r with EmptyString => Some v | _ => None end
  | None => None
  end.

(** Source text written with ['] for ["] (a literal ["] cannot appear in a
    string literal without doubling it). *)
Fixpoint jtext (s : string) : string :=
  match s with
  | EmptyString => EmptyString
  | String c s' => String (if Ascii.eqb c "'" then dq else c) (jtext s')
  end.

(** Number to string ([Number.prototype.toString] for the finite decimals that
    [JSON.parse] produces; exponent notation for magnitudes of [1e21] and above
    or below [1e-6] is not modelled). *)
Definition number_to_string (q : Q) : string :=
  let q' := Qred q in
  let n := Qnum q' in
  let d := Zpos (Qden q') in
  if (d =? 1)%Z then Z_to_string n
  else
    let k := Z.of_nat (Pos.size_nat (Qden q')) in
    let scaled := Z.abs (n * 10 ^ k / d) in
    let digs := Z_to_string scaled in
    let len := Z.of_nat (String.length digs) in
    let padded := if (len <=? k)%Z
                  then append (String.concat "" (repeat "0" (Z.to_nat (k + 1 - len)))) digs
                  else digs in
    let plen := String.length padded in
    let ip := substring 0 (plen - Z.to_nat k) padded in
    let fp := substring (plen - Z.to_nat k) (Z.to_nat k) padded in
    let fix trim (s : string) : string :=
      match s with
      | EmptyString => EmptyString
      | String c s' => let t := trim s' in
                       if String.eqb t "" && Ascii.eqb c "0" then "" else String c t
      end in
    (if (n <? 0)%Z then "-" else "") ++ ip ++ "." ++ trim fp.

(** [ToString] of an array element inside [Array.prototype.join]
    ([null] becomes the empty string). *)
Fixpoint elem_to_string (v : json) : string :=
  match v with
  | JNull => ""
  | JBool b => if b then "true" else "false"
  | JNum q => number_to_string q
  | JStr s => s
  | JArr xs => join "," (map elem_to_string xs)
  | JObj _ => "[object Object]"
  end.

End Js.

(* ------------------------------------------------------------------------- *)
(** ** Component state and operations of [ReconcileApp] *)

Module App.
Import Js.

(** A selected [File]: only its name and size are read by the component. *)
Record file := mkFile { file_name : string; file_size : Z }.

(** A request put on the network (the [fetch] of the warm-up probe or the
    [XMLHttpRequest] of the upload): method, URL and multipart fields. *)
Record request := mkRequest {
  req_method : string;
  req_url : string;
  req_fields : list (string * file) }.

(** The [useState] hooks of the component, the [statusAppsCacheRef] ref, and
    the log of requests sent so far. *)
Record state := mkState {
  isBackendReady : bool;
  exchangeFile : option file;
  pspFile : option file;
  loading : bool;
  progress : Z;
  result : json;
  error : option string;
  visibleStatus : option string;
  page : Z;
  statusAppsCache : json;
  network : list request }.

Definition initial_state : state :=
  mkState false None None false 0 JNull None None 1 (JObj []) [].

Definition setIsBackendReady (b : bool) (s : state) : state :=
  mkState b (exchangeFile s) (pspFile s) (loading s) (progress s) (result s)
    (error s) (visibleStatus s) (page s) (statusAppsCache s) (network s).
Definition setLoading (b : bool) (s : state) : state :=
  mkState (isBackendReady s) (exchangeFile s) (pspFile s) b (progress s) (result s)
    (error s) (visibleStatus s) (page s) (statusAppsCache s) (network s).
Definition setProgress (p : Z) (s : state) : state :=
  mkState (isBackendReady s) (exchangeFile s) (pspFile s) (loading s) p (result s)
    (error s) (visibleStatus s) (page s) (statusAppsCache s) (network s).
Definition setResult (r : json) (s : state) : state :=
  mkState (isBackendReady s) (exchangeFile s) (pspFile s) (loading s) (progress s) r
    (error s) (visibleStatus s) (page s) (statusAppsCache s) (network s).
Definition setError (e : option string) (s : state) : state :=
  mkState (isBackendReady s) (exchangeFile s) (pspFile s) (loading s) (progress s)
    (result s) e (visibleStatus s) (page s) (statusAppsCache s) (network s).
Definition setPage (p : Z) (s : state) : state :=
  mkState (isBackendReady s) (exchangeFile s) (pspFile s) (loading s) (progress s)
    (result s) (error s) (visibleStatus s) p (statusAppsCache s) (network s).
Definition setCache (c : json) (s : state) : state :=
  mkState (isBackendReady s) (exchangeFile s) (pspFile s) (loading s) (progress s)
    (result s) (error s) (visibleStatus s) (page s) c (network s).
Definition send (r : request) (s : state) : state :=
  mkState (isBackendReady s) (exchangeFile s) (pspFile s) (loading s) (progress s)
    (result s) (error s) (visibleStatus s) (page s) (statusAppsCache s)
    (network s ++ [r])%list.

(** [DEFAULT_API]: [import.meta?.env?.VITE_API_URL || "https://..."]. *)
Definition DEFAULT_URL : string := "https://ipo-analytics-api.onrender.com/operations".
Definition DEFAULT_API (VITE_API_URL : option string) : string :=
  match VITE_API_URL with
  | Some u => if truthy (JStr u) then u else DEFAULT_URL
  | None => DEFAULT_URL
  end.

(** *** Warm-up effect *)

Definition healthCheckURL (API_URL : string) : string :=
  replace API_URL "/operations" "/".

(** How the awaited [fetch] settles: a response with its HTTP status, or a
    thrown exception. *)
Inductive fetch_outcome := FetchResponse (status : Z) | FetchThrows.

Definition response_ok (status : Z) : bool := (200 <=? status)%Z && (status <=? 299)%Z.

(** [fetch(healthCheckURL, { method: 'GET', mode: 'cors' })] *)
Definition warmUp_fetch (API_URL : string) (s : state) : state :=
  send (mkRequest "GET" (healthCheckURL API_URL) []) s.

(** The code after the [await], in the [try] and the [catch]. *)
Definition warmUp_settle (o : fetch_outcome) (s : state) : state :=
  match o with
  | FetchResponse st =>
      if response_ok st then setIsBackendReady true s
      else setIsBackendReady true s
  | FetchThrows => setIsBackendReady true s
  end.

(** [warmUpBackend()], run once by the effect ([API_URL] never changes). *)
Definition warmUpBackend (API_URL : string) (o : fetch_outcome) (s : state) : state :=
  warmUp_settle o (warmUp_fetch API_URL s).

(** *** [upload] and its XMLHttpRequest handlers *)

Definition msg_missing_files : string := "Please select both Exchange and PSP files.".
Definition msg_invalid_json : string := "Server returned invalid JSON or response.".
Definition msg_network : string :=
  "Network error while uploading files. Check CORS or API endpoint.".

Definition upload (API_URL : string) (s : state) : state :=
  let s := setResult JNull (setError None s) in
  match exchangeFile s, pspFile s with
  | Some ef, Some pf =>
      let s := setProgress 0 (setLoading true s) in
      send (mkRequest "POST" API_URL [("exchange_file", ef); ("psp_file", pf)]) s
  | _, _ => setError (Some msg_missing_files) s
  end.

(** Events of the [XMLHttpRequest] sent by [upload]. *)
Inductive xhr_event :=
| XhrProgress (lengthComputable : bool) (loaded total : Z)
| XhrLoad (status : Z) (statusText responseText : string)
| XhrError.

(** [Math.max(1, Math.round((e.loaded / e.total) * 100))], with the division
    and the multiplication rounded to double precision.  The quotient is
    finite whenever [total > 0], and a length-computable event of this upload
    has [total > 0] (the multipart body holds at least its boundary lines);
    the non-finite case ([NaN] or [Infinity] in the code, not a value of the
    integer progress state) does not arise and is given the floor value 1. *)
Definition progress_pct (loaded total : Z) : Z :=
  match math_round (dbl_mul (dbl_div (dbl_of_Z loaded) (dbl_of_Z total)) (dbl_of_Z 100)) with
  | Some r => Z.max 1 r
  | None => 1
  end.

Definition onprogress (lengthComputable : bool) (loaded total : Z) (s : state) : state :=
  if lengthComputable then setProgress (progress_pct loaded total) s else s.

Definition onload (status : Z) (statusText responseText : string) (s : state) : state :=
  let s := setLoading false s in
  if (200 <=? status)%Z && (status <? 300)%Z then
    match JSON_parse responseText with
    | Some json =>
        let s := setResult json s in
        match member json "status_applications" with
        | None => setError (Some msg_invalid_json) s
        | Some sa =>
            match sa with
            | Some v => if truthy v then setCache v s else s
            | None => s
            end
        end
    | None => setError (Some msg_invalid_json) s
    end
  else
    setError (Some ("Upload failed (" ++ Z_to_string status ++ "): "
                    ++ (if truthy (JStr responseText) then responseText else statusText)))
      s.

Definition onerror (s : state) : state :=
  setError (Some msg_network) (setLoading false s).

Definition on_xhr (e : xhr_event) (s : state) : state :=
  match e with
  | XhrProgress lc l t => onprogress lc l t s
  | XhrLoad st stt txt => onload st stt txt s
  | XhrError => onerror s
  end.

Definition run_xhr (evs : list xhr_event) (s : state) : state :=
  fold_left (fun s e => on_xhr e s) evs s.

(** *** Result browser *)

(** [getApps(status)] *)
Definition getApps (s : state) (status : string) : json :=
  let c := statusAppsCache s in
  if truthy c then
    match member c status with
    | Some (Some v) => if truthy v then v else JArr []
    | _ => JArr []
    end
  else JArr [].

(** [downloadStatusCSV(status)]: the file name and the content of the Blob;
    [None] is the TypeError of [apps.join] on a cached value that is not an
    array. *)
Definition downloadStatusCSV (s : state) (status : string) : option (string * string) :=
  let apps := getApps s status in
  let apps := if truthy apps then apps else JArr [] in
  let header := "applicationNumber" ++ nl in
  match apps with
  | JArr xs =>
      let body := join nl (map elem_to_string xs) in
      Some (status ++ "_applications.csv", header ++ body)
  | _ => None
  end.

(** [statusesSorted]: [Object.entries(result.status_counts)] (pairs of a
    status and its numeric count) sorted with the comparator
    [(a, b) => b[1] - a[1]].  [Array.prototype.sort] is stable, so the result
    is the one of a stable insertion sort. *)
Definition cmp_counts (a b : string * Q) : Q := snd b - snd a.

Fixpoint insert_sorted (x : string * Q) (l : list (string * Q)) : list (string * Q) :=
  match l with
  | [] => [x]
  | y :: l' =>
      if negb (Qle_bool (cmp_counts y x) 0) then x :: y :: l'
      else y :: insert_sorted x l'
  end.

Definition statusesSorted (entries : list (string * Q)) : list (string * Q) :=
  fold_left (fun acc x => insert_sorted x acc) entries [].

(** [Math.max(...statusesSorted.map((s) => s[1]), 1)] *)
Definition maxCount (sorted : list (string * Q)) : Q :=
  fold_right Qmax 1 (map snd sorted).



(** [Math.round((count / maxCount) * 100)] in double precision; [None] is a
    non-finite result.  [Math.max] over the counts read as doubles is the
    double of the largest count, since rounding to double is monotone, so
    [maxCount] is computed on the exact counts and then read as a double. *)
Definition pct_dbl (count mx : Q) : option Z :=
  math_round (dbl_mul (dbl_div (dbl_of_Q count) (dbl_of_Q mx)) (dbl_of_Z 100)).

(** Rows of the status summary as the code renders them: status, count and
    bar percentage. *)
Definition summary_rows_dbl (entries : list (string * Q)) : list (string * Q * option Z) :=
  let sorted := statusesSorted entries in
  map (fun '(st, c) => (st, c, pct_dbl c (maxCount sorted))) sorted.

(** *** Detail view pagination *)

Definition PAGE_SIZE : Z := 50.

(** [Array.prototype.slice(start, end)] *)
Definition rel_index (k len : Z) : Z :=
  if (k <? 0)%Z then Z.max (len + k) 0 else Z.min k len.

Definition js_slice {A} (l : list A) (start end_ : Z) : list A :=
  let len := Z.of_nat (length l) in
  let from := rel_index start len in
  let to := rel_index end_ len in
  firstn (Z.to_nat (to - from)) (skipn (Z.to_nat from) l).

Definition totalPages {A} (visibleApps : list A) : Z :=
  Z.max 1 (ceil (inject_Z (Z.of_nat (length visibleApps)) / inject_Z PAGE_SIZE)).

Definition visiblePageItems {A} (visibleApps : list A) (page : Z) : list A :=
  js_slice visibleApps ((page - 1) * PAGE_SIZE) (page * PAGE_SIZE).

(** Prev and Next buttons: a disabled button does nothing. *)
Definition click_prev (page : Z) : Z :=
  if (page =? 1)%Z then page else Z.max 1 (page - 1).

Definition click_next (totalPages page : Z) : Z :=
  if (page =? totalPages)%Z then page else Z.min totalPages (page + 1).

(** *** Other parts of the component *)

Definition setExchangeFile (f : file) (s : state) : state :=
  mkState (isBackendReady s) (Some f) (pspFile s) (loading s) (progress s)
    (result s) (error s) (visibleStatus s) (page s) (statusAppsCache s) (network s).
Definition setPspFile (f : file) (s : state) : state :=
  mkState (isBackendReady s) (exchangeFile s) (Some f) (loading s) (progress s)
    (result s) (error s) (visibleStatus s) (page s) (statusAppsCache s) (network s).
Definition setVisibleStatus (v : option string) (s : state) : state :=
  mkState (isBackendReady s) (exchangeFile s) (pspFile s) (loading s) (progress s)
    (result s) (error s) v (page s) (statusAppsCache s) (network s).

(** [clearAll()]; [setExchangeFile(null)] and [setPspFile(null)] are written
    out on the record. *)
Definition clearAll (s : state) : state :=
  let s := mkState (isBackendReady s) None None (loading s) (progress s)
             (result s) (error s) (visibleStatus s) (page s) (statusAppsCache s)
             (network s) in
  setCache (JObj []) (setProgress 0 (setError None (setResult JNull s))).

(** The [FileList] of an event ([None] when the event carries none). *)
Definition first_file (files : option (list file)) : option file :=
  match files with
  | Some (f :: _) => Some f
  | _ => None
  end.

(** [onDropFile(e, setter)]: [e.dataTransfer?.files?.[0]]. *)
Definition onDropFile (files : option (list file)) (setter : file -> state -> state)
  (s : state) : state :=
  match first_file files with Some f => setter f s | None => s end.

(** [onChangeFile(e, setter)]: [e.target.files && e.target.files[0]]. *)
Definition onChangeFile (files : option (list file)) (setter : file -> state -> state)
  (s : state) : state :=
  match first_file files with Some f => setter f s | None => s end.

Definition openStatus (status : string) (s : state) : state :=
  setPage 1 (setVisibleStatus (Some status) s).

Definition closeStatus (s : state) : state := setVisibleStatus None s.

(** [visibleApps] and the list shown in the modal ([None]: the cached value
    is not an array, which the modal does not render). *)
Definition visibleApps (s : state) : json :=
  match visibleStatus s with Some st => getApps s st | None => JArr [] end.

Definition modalPageItems (s : state) : option (list json) :=
  match visibleApps s with
  | JArr xs => Some (visiblePageItems xs (page s))
  | _ => None
  end.

(** User actions on the upload form, with the [disabled] attributes of the
    [FileDrop] inputs and drop zones ([!isBackendReady]), of the Run
    Reconciliation button ([loading || !isBackendReady]) and of the Clear
    button ([!isBackendReady]): a disabled control does nothing. *)
Inductive ui_action :=
| ChooseExchange (files : option (list file))
| DropExchange (files : option (list file))
| ChoosePsp (files : option (list file))
| DropPsp (files : option (list file))
| ClickUpload
| ClickClear.

Definition ui_step (API_URL : string) (a : ui_action) (s : state) : state :=
  let disabled := negb (isBackendReady s) in
  match a with
  | ChooseExchange fs => if disabled then s else onChangeFile fs setExchangeFile s
  | DropExchange fs => if disabled then s else onDropFile fs setExchangeFile s
  | ChoosePsp fs => if disabled then s else onChangeFile fs setPspFile s
  | DropPsp fs => if disabled then s else onDropFile fs setPspFile s
  | ClickUpload => if loading s || disabled then s else upload API_URL s
  | ClickClear => if disabled then s else clearAll s
  end.

(** *** [humanReadable(bytes)] *)

(** [x.toFixed(1)]: the integer [n] nearest to [10 x], the larger one on a
    tie, printed with one decimal (magnitudes of [1e21] and above, printed
    by [toFixed] in exponent form, are not modelled). *)
Definition toFixed1 (x : Q) : string :=
  let fixed (y : Q) :=
    let n := Qfloor (y * 10 + (1 # 2)) in
    Z_to_string (n / 10) ++ "." ++ Z_to_string (n mod 10) in
  if Qle_bool 0 x then fixed x else "-" ++ fixed (- x).

Definition units : list string := ["B"; "KB"; "MB"; "GB"].

(** The [while (num >= 1024 && i < units.length - 1)] loop; its guard fails
    after at most three rounds, so three rounds of fuel are exact. *)
Fixpoint hr_loop (fuel : nat) (num : Q) (i : nat) : Q * nat :=
  match fuel with
  | O => (num, i)
  | S f =>
      if Qle_bool 1024 num && (i <? length units - 1)%nat
      then hr_loop f (num / 1024) (S i)
      else (num, i)
  end.

(** [bytes] is a number or [undefined] ([None]); [NaN] is not modelled. *)
Definition humanReadable (bytes : option Q) : string :=
  match bytes with
  | None => "-"
  | Some b =>
      if negb (truthy (JNum b)) && negb (Qeq_bool b 0) then "-"
      else
        let '(num, i) := hr_loop 3 b 0 in
        toFixed1 num ++ " " ++ nth i units ""
  end.

End App.

(* ------------------------------------------------------------------------- *)
(** ** Properties *)

Module Props.
Import Js App.

(** An [XMLHttpRequest] event that is a 2xx load whose body [JSON.parse]
    accepts. *)
Definition parsed_load (e : xhr_event) : bool :=
  match e with
  | XhrLoad st _ txt =>
      (200 <=? st)%Z && (st <? 300)%Z
      && match JSON_parse txt with Some _ => true | None => false end
  | _ => false
  end.

Lemma on_xhr_keeps_result e s :
  parsed_load e = false -> result (on_xhr e s) = result s.
Proof.
  destruct e as [lc l t | st stt txt |]; simpl; intros Hp.
  - unfold onprogress; destruct lc; reflexivity.
  - unfold onload.
    destruct ((200 <=? st)%Z && (st <? 300)%Z) eqn:Hst; simpl in *; [|reflexivity].
    destruct (JSON_parse txt); [discriminate | reflexivity].
  - reflexivity.
Qed.

Lemma run_xhr_keeps_result evs s :
  forallb (fun e => negb (parsed_load e)) evs = true ->
  result (run_xhr evs s) = result s.
Proof.
  revert s; induction evs as [|e evs IH]; intros s H; simpl in *; [reflexivity|].
  apply andb_prop in H as [He Hevs].
  rewrite IH by exact Hevs.
  apply on_xhr_keeps_result. now destruct (parsed_load e).
Qed.

Lemma upload_result API_URL s : result (upload API_URL s) = JNull.
Proof.
  unfold upload; simpl.
  destruct (exchangeFile s), (pspFile s); reflexivity.
Qed.

Lemma onload_parse_failure_keeps_result st stt txt s :
  (200 <= st < 300)%Z -> JSON_parse txt = None ->
  result (onload st stt txt s) = result s /\
  error (onload st stt txt s) = Some msg_invalid_json.
Proof.
  intros [H1 H2] Hp. unfold onload.
  replace ((200 <=? st)%Z && (st <? 300)%Z) with true
    by (symmetry; apply andb_true_intro; split; [apply Z.leb_le | apply Z.ltb_lt]; lia).
  rewrite Hp. split; reflexivity.
Qed.

(** Sample inputs. *)
Definition exchange_csv : file := mkFile "exchange.csv" 2048.
Definition psp_csv : file := mkFile "psp.csv" 1024.

(** The component after the warm-up probe and the selection of both files. *)
Definition ready_with_files : state :=
  mkState true (Some exchange_csv) (Some psp_csv) false 0 JNull None None 1 (JObj []) [].

Definition response_pending : string :=
  jtext "{'exchange_unique_count': 2, 'status_counts': {'PENDING': 2}, 'status_applications': {'PENDING': ['A1', 'A2']}}".

Definition response_no_apps : string :=
  jtext "{'exchange_unique_count': 3, 'status_counts': {'MATCHED': 3}}".

(** State after a first successful upload returning [response_pending]. *)
Definition after_first_upload : state :=
  onload 200 "OK" response_pending (upload DEFAULT_URL ready_with_files).

(** C1 (counterexample): the claim says a 2xx response with an unparseable
    body leaves the previous result unchanged.  After a first successful
    upload, a second upload answered by an HTML page leaves [null] instead. *)
Lemma C1_previous_result_lost :
  result after_first_upload <> JNull /\
  result (onload 200 "OK" "<html>" (upload DEFAULT_URL after_first_upload))
    <> result after_first_upload.
Proof. vm_compute. split; discriminate. Qed.

(** C1 (amended): when both files are selected and the response is a 2xx
    whose body [JSON.parse] rejects, the completion handler sets the
    "invalid JSON" error and leaves the stored result as it finds it; since
    [upload] clears the result before sending, the result after such an
    upload is [null]. *)
Theorem C1_parse_failure_result : forall API_URL s ef pf st stt txt s0,
  exchangeFile s = Some ef -> pspFile s = Some pf ->
  (200 <= st < 300)%Z -> JSON_parse txt = None ->
  result (onload st stt txt s0) = result s0 /\
  result (onload st stt txt (upload API_URL s)) = JNull /\
  error (onload st stt txt (upload API_URL s)) = Some msg_invalid_json.
Proof.
  intros API_URL s ef pf st stt txt s0 Hef Hpf Hst Hp.
  destruct (onload_parse_failure_keeps_result st stt txt s0 Hst Hp) as [H0 _].
  destruct (onload_parse_failure_keeps_result st stt txt (upload API_URL s) Hst Hp)
    as [H1 H2].
  split; [exact H0|]. split; [|exact H2].
  rewrite H1. apply upload_result.
Qed.

Lemma C1_parse_failure_result_witness :
  JSON_parse "<html>" = None /\
  result (onload 200 "OK" "<html>" after_first_upload) = result after_first_upload /\
  result (onload 200 "OK" "<html>" (upload DEFAULT_URL after_first_upload)) = JNull /\
  error (onload 200 "OK" "<html>" (upload DEFAULT_URL after_first_upload))
    = Some msg_invalid_json.
Proof.
  split; [vm_compute; reflexivity|].
  apply (C1_parse_failure_result DEFAULT_URL after_first_upload exchange_csv psp_csv
           200 "OK" "<html>" after_first_upload);
    [vm_compute; reflexivity | vm_compute; reflexivity | lia | vm_compute; reflexivity].
Defined.

(** C2 (code_bug): a successful upload whose response has no
    [status_applications] leaves the cache of the previous upload in place:
    the applications of "PENDING" from the first response are still served
    after the second response, which has no such field. *)
Theorem C2_stale_cache :
  let s2 := onload 200 "OK" response_no_apps (upload DEFAULT_URL after_first_upload) in
  (exists j, JSON_parse response_no_apps = Some j /\
             member j "status_applications" = Some None) /\
  result s2 <> JNull /\
  getApps s2 "PENDING" = JArr [JStr "A1"; JStr "A2"].
Proof.
  vm_compute. split; [eexists; split; reflexivity|]. split; [discriminate|reflexivity].
Qed.

(** C7: when a file selection is missing, [upload] sets the validation error
    and returns before any request is sent. *)
Theorem C7_missing_file_no_request : forall API_URL s,
  exchangeFile s = None \/ pspFile s = None ->
  error (upload API_URL s) = Some msg_missing_files /\
  network (upload API_URL s) = network s /\
  loading (upload API_URL s) = loading s.
Proof.
  intros API_URL s H. unfold upload; simpl.
  destruct H as [H | H]; rewrite H;
    [| destruct (exchangeFile s)]; repeat split.
Qed.

Lemma C7_missing_file_no_request_witness :
  let s := mkState true (Some exchange_csv) None false 0 JNull None None 1 (JObj []) [] in
  error (upload DEFAULT_URL s) = Some msg_missing_files /\
  network (upload DEFAULT_URL s) = network s /\
  loading (upload DEFAULT_URL s) = loading s.
Proof.
  intros s. apply C7_missing_file_no_request. right. reflexivity.
Defined.

(** C9: whatever the outcome of the one warm-up [fetch] (a 2xx response, an
    HTTP error status, or a thrown exception), the backend is marked ready,
    and exactly one request, the GET of the health URL, has been sent. *)
Theorem C9_ready_after_one_probe : forall API_URL o s,
  isBackendReady (warmUpBackend API_URL o s) = true /\
  network (warmUpBackend API_URL o s)
    = (network s ++ [mkRequest "GET" (healthCheckURL API_URL) []])%list /\
  network (warmUp_settle o (warmUp_fetch API_URL s)) = network (warmUp_fetch API_URL s).
Proof.
  intros API_URL o s. unfold warmUpBackend, warmUp_settle.
  destruct o as [st|]; [destruct (response_ok st)|]; repeat split.
Qed.

(** C10: [upload] clears the error and the result first; after it, no
    sequence of XMLHttpRequest events other than a 2xx load with a parsable
    body (validation failure, HTTP error status, network error, invalid JSON,
    progress events) brings a result back: the result stays [null]. *)
Theorem C10_failed_upload_result_null : forall API_URL s evs,
  forallb (fun e => negb (parsed_load e)) evs = true ->
  result (upload API_URL s) = JNull /\
  (exchangeFile s <> None -> pspFile s <> None -> error (upload API_URL s) = None) /\
  result (run_xhr evs (upload API_URL s)) = JNull.
Proof.
  intros API_URL s evs H.
  split; [apply upload_result|]. split.
  - intros He Hp. unfold upload; simpl.
    destruct (exchangeFile s); [|congruence]. destruct (pspFile s); [|congruence].
    reflexivity.
  - rewrite run_xhr_keeps_result by exact H. apply upload_result.
Qed.

Lemma C10_failed_upload_result_null_witness :
  let evs := [XhrProgress true 512 3072; XhrProgress true 3072 3072;
              XhrLoad 502 "Bad Gateway" ""] in
  forallb (fun e => negb (parsed_load e)) evs = true /\
  result (run_xhr evs (upload DEFAULT_URL after_first_upload)) = JNull.
Proof.
  intros evs. split; [vm_compute; reflexivity|].
  apply (C10_failed_upload_result_null DEFAULT_URL after_first_upload evs).
  vm_compute; reflexivity.
Defined.

(** *** Health URL *)

(** The base path of a URL in the spec's words: the URL with its final
    segment stripped (everything after the last ['/']). *)
Fixpoint has_slash (s : string) : bool :=
  match s with
  | EmptyString => false
  | String c s' => Ascii.eqb c "/" || has_slash s'
  end.

Fixpoint spec_base_path (url : string) : string :=
  match url with
  | EmptyString => EmptyString
  | String c s' =>
      if has_slash s' then String c (spec_base_path s')
      else if Ascii.eqb c "/" then "/" else EmptyString
  end.

(** No occurrence of [pat] starts inside [p] in [p ++ suffix]. *)
Fixpoint no_match_in (pat p suffix : string) : bool :=
  match p with
  | EmptyString => true
  | String c p' => negb (starts_with pat (String c p' ++ suffix)) && no_match_in pat p' suffix
  end.

Lemma append_empty_r (s : string) : s ++ EmptyString = s.
Proof. induction s as [|c s IH]; simpl; [reflexivity|]. now rewrite IH. Qed.

Lemma starts_with_refl s : starts_with s s = true.
Proof. induction s as [|c s IH]; simpl; [reflexivity|]. now rewrite Ascii.eqb_refl. Qed.

Lemma substring_past_end s m : substring (String.length s) m s = EmptyString.
Proof.
  induction s as [|c s IH]; simpl; [destruct m; reflexivity | exact IH].
Qed.

Lemma replace_at_end pat rep p :
  no_match_in pat p pat = true -> replace (p ++ pat) pat rep = p ++ rep.
Proof.
  induction p as [|c p IH]; simpl; intros H.
  - destruct pat as [|a pat']; simpl.
    + apply append_empty_r.
    + rewrite Ascii.eqb_refl, starts_with_refl; simpl.
      rewrite substring_past_end. apply append_empty_r.
  - apply andb_prop in H as [H1 H2]. apply negb_true_iff in H1.
    destruct pat as [|a pat']; [discriminate|].
    simpl in H1 |- *. rewrite H1. rewrite IH by exact H2. reflexivity.
Qed.

Lemma has_slash_operations p : has_slash (p ++ "/operations") = true.
Proof. induction p as [|c p IH]; simpl; [reflexivity|]. now rewrite IH, orb_true_r. Qed.

Lemma spec_base_path_operations p : spec_base_path (p ++ "/operations") = p ++ "/".
Proof.
  induction p as [|c p IH]; [reflexivity|].
  simpl. rewrite has_slash_operations, IH. reflexivity.
Qed.

Lemma warmUp_network API_URL o s :
  network (warmUpBackend API_URL o s)
  = (network s ++ [mkRequest "GET" (healthCheckURL API_URL) []])%list.
Proof.
  unfold warmUpBackend, warmUp_settle.
  destruct o as [st|]; [destruct (response_ok st)|]; reflexivity.
Qed.

(** C3 (code bug): the comment of the effect says the health check URL is
    the base API URL, but [API_URL.replace('/operations', '/')] only yields
    it when the URL ends in its one ["/operations"].  For a configured URL
    without ["/operations"] the single GET goes to the upload URL itself; for
    one with two occurrences the first is replaced and the probe goes to a
    URL with a doubled slash.  In both cases, whatever the probe's outcome,
    the GET does not go to the base path. *)
Theorem C3_probe_url_not_base : forall o,
  let api1 := DEFAULT_API (Some "https://api.example.com/reconcile") in
  let api2 := DEFAULT_API (Some "https://x.com/operations/v1/operations") in
  network (warmUpBackend api1 o initial_state)
    = [mkRequest "GET" "https://api.example.com/reconcile" []] /\
  spec_base_path api1 = "https://api.example.com/" /\
  network (warmUpBackend api2 o initial_state)
    = [mkRequest "GET" "https://x.com//v1/operations" []] /\
  spec_base_path api2 = "https://x.com/operations/v1/".
Proof.
  intros o api1 api2. rewrite !warmUp_network.
  split; [vm_compute; reflexivity|].
  split; [vm_compute; reflexivity|].
  split; vm_compute; reflexivity.
Qed.

(** When the configured URL is [p ++ "/operations"] with no earlier
    ["/operations"] in it, as the default URL is, the probe's single GET goes
    to the base path [p ++ "/"] (the URL with its final segment stripped),
    whatever the outcome of the probe. *)
Theorem probe_url_operations : forall API_URL p o s,
  API_URL = p ++ "/operations" ->
  no_match_in "/operations" p "/operations" = true ->
  healthCheckURL API_URL = p ++ "/" /\
  spec_base_path API_URL = p ++ "/" /\
  network (warmUpBackend API_URL o s)
    = (network s ++ [mkRequest "GET" (spec_base_path API_URL) []])%list.
Proof.
  intros API_URL p o s -> Hno.
  assert (Hh : healthCheckURL (p ++ "/operations") = p ++ "/")
    by (unfold healthCheckURL; apply replace_at_end; exact Hno).
  split; [exact Hh|]. split; [apply spec_base_path_operations|].
  rewrite spec_base_path_operations, <- Hh. apply warmUp_network.
Qed.

Lemma probe_url_operations_witness :
  healthCheckURL (DEFAULT_API None) = "https://ipo-analytics-api.onrender.com/" /\
  spec_base_path (DEFAULT_API None) = "https://ipo-analytics-api.onrender.com/" /\
  network (warmUpBackend (DEFAULT_API None) FetchThrows initial_state)
    = [mkRequest "GET" "https://ipo-analytics-api.onrender.com/" []].
Proof.
  apply (probe_url_operations (DEFAULT_API None) "https://ipo-analytics-api.onrender.com"
           FetchThrows initial_state); vm_compute; reflexivity.
Defined.

(** *** Pagination *)

Lemma ceil_page n : ceil (inject_Z n / inject_Z PAGE_SIZE) = (- (- n / 50))%Z.
Proof. unfold ceil, Qceiling, Qfloor, PAGE_SIZE; simpl. now rewrite Z.mul_1_r. Qed.

Lemma totalPages_spec {A} (l : list A) :
  let n := Z.of_nat (length l) in
  (1 <= totalPages l)%Z /\
  (n = 0 -> totalPages l = 1)%Z /\
  (0 < n -> (totalPages l - 1) * 50 < n <= totalPages l * 50)%Z.
Proof.
  intros n. unfold totalPages. fold n. rewrite ceil_page.
  assert (Hn : (0 <= n)%Z) by lia.
  pose proof (Z.div_mod (- n) 50 ltac:(lia)) as Hd.
  pose proof (Z.mod_pos_bound (- n) 50 ltac:(lia)) as Hm.
  lia.
Qed.

Lemma visiblePageItems_eq {A} (l : list A) p :
  (1 <= p <= totalPages l)%Z ->
  visiblePageItems l p
  = firstn (Z.to_nat (Z.min (p * 50) (Z.of_nat (length l)) - (p - 1) * 50))
      (skipn (Z.to_nat ((p - 1) * 50)) l).
Proof.
  intros Hp. destruct (totalPages_spec l) as (H1 & H2 & H3).
  unfold visiblePageItems, js_slice, rel_index, PAGE_SIZE.
  set (n := Z.of_nat (length l)) in *.
  assert (Hs : Z.min ((p - 1) * 50) n = ((p - 1) * 50)%Z).
  { destruct (Z.eq_dec n 0) as [E|E]; [specialize (H2 E); lia|].
    specialize (H3 ltac:(lia)). nia. }
  replace ((p - 1) * 50 <? 0)%Z with false by (symmetry; apply Z.ltb_ge; lia).
  replace (p * 50 <? 0)%Z with false by (symmetry; apply Z.ltb_ge; lia).
  rewrite Hs. reflexivity.
Qed.

(** C4: the detail view has [max(1, ceil(n/50))] pages (one page for an empty
    list); a page [p] in [[1, totalPages]] shows exactly the items of indices
    [[(p-1)*50, min(p*50, n))]; Prev and Next keep the page in
    [[1, totalPages]] and do nothing at the first and last page.  For 120
    items: 3 pages, page 1 is items [[0,50)], page 3 is items [[100,120)]. *)
Theorem C4_pagination : forall (A : Type) (l : list A) (p : Z),
  (1 <= p <= totalPages l)%Z ->
  let n := Z.of_nat (length l) in
  let items := visiblePageItems l p in
  (1 <= totalPages l)%Z /\
  (n = 0 -> totalPages l = 1)%Z /\
  (0 < n -> (totalPages l - 1) * 50 < n <= totalPages l * 50)%Z /\
  Z.of_nat (length items) = (Z.min (p * 50) n - (p - 1) * 50)%Z /\
  (forall i, (i < length items)%nat ->
     nth_error items i = nth_error l (Z.to_nat ((p - 1) * 50) + i)) /\
  (1 <= click_prev p <= totalPages l)%Z /\
  (1 <= click_next (totalPages l) p <= totalPages l)%Z /\
  (p = 1 -> click_prev p = p)%Z /\
  (p = totalPages l -> click_next (totalPages l) p = p)%Z /\
  (1 < p -> click_prev p = p - 1)%Z /\
  (p < totalPages l -> click_next (totalPages l) p = p + 1)%Z /\
  (forall (B : Type) (m : list B), length m = 120%nat ->
     totalPages m = 3%Z /\ visiblePageItems m 1 = firstn 50 m /\
     visiblePageItems m 3 = skipn 100 m).
Proof.
  intros A l p Hp n items.
  destruct (totalPages_spec l) as (H1 & H2 & H3). fold n in H2, H3.
  assert (Hlen : Z.of_nat (length items) = (Z.min (p * 50) n - (p - 1) * 50)%Z).
  { unfold items. rewrite visiblePageItems_eq by exact Hp.
    rewrite length_firstn, length_skipn. fold n.
    destruct (Z.eq_dec n 0) as [E|E]; [specialize (H2 E); lia|].
    specialize (H3 ltac:(lia)). lia. }
  split; [exact H1|]. split; [exact H2|]. split; [exact H3|].
  split; [exact Hlen|]. split.
  { intros i Hi. unfold items in *. rewrite visiblePageItems_eq in * by exact Hp.
    rewrite nth_error_firstn, nth_error_skipn.
    rewrite length_firstn in Hi.
    replace (Nat.ltb i _) with true by (symmetry; apply Nat.ltb_lt; lia).
    reflexivity. }
  unfold click_prev, click_next.
  split; [destruct (Z.eqb_spec p 1); lia|].
  split; [destruct (Z.eqb_spec p (totalPages l)); lia|].
  split; [intros ->; reflexivity|].
  split; [intros E; rewrite <- E, Z.eqb_refl; reflexivity|].
  split; [intros Hlt; destruct (Z.eqb_spec p 1); lia|].
  split; [intros Hlt; destruct (Z.eqb_spec p (totalPages l)); lia|].
  intros B m Hm.
  assert (Ht : totalPages m = 3%Z) by (unfold totalPages; rewrite Hm; reflexivity).
  split; [exact Ht|].
  split.
  - rewrite visiblePageItems_eq by lia. rewrite Hm. reflexivity.
  - rewrite visiblePageItems_eq by lia. rewrite Hm. simpl Z.to_nat.
    apply firstn_all2. rewrite length_skipn, Hm. lia.
Qed.

Lemma C4_pagination_witness :
  let l := seq 0 120 in
  (1 <= 3 <= totalPages l)%Z /\ visiblePageItems l 3 = seq 100 20.
Proof.
  intros l. split; [vm_compute; split; discriminate|].
  destruct (C4_pagination nat l 3 ltac:(vm_compute; split; discriminate))
    as (_ & _ & _ & _ & _ & _ & _ & _ & _ & _ & _ & Hex).
  destruct (Hex nat l eq_refl) as (_ & _ & H3). rewrite H3. reflexivity.
Defined.

(** *** Rounding and the status summary *)



Definition desc (a b : string * Q) : Prop := snd b <= snd a.

Lemma cmp_counts_le y x : Qle_bool (cmp_counts y x) 0 = true <-> snd x <= snd y.
Proof. unfold cmp_counts. rewrite Qle_bool_iff. split; intros; lra. Qed.

Lemma insert_sorted_perm x l : Permutation (x :: l) (insert_sorted x l).
Proof.
  induction l as [|y l IH]; simpl; [reflexivity|].
  destruct (negb (Qle_bool (cmp_counts y x) 0)); [reflexivity|].
  rewrite perm_swap. constructor. exact IH.
Qed.

Lemma insert_sorted_hd y x l :
  HdRel desc y l -> desc y x -> HdRel desc y (insert_sorted x l).
Proof.
  intros Hl Hyx. destruct l as [|z l]; simpl.
  - constructor. exact Hyx.
  - destruct (negb (Qle_bool (cmp_counts z x) 0)); constructor;
      [exact Hyx | now inversion Hl].
Qed.

Lemma insert_sorted_sorted x l : Sorted desc l -> Sorted desc (insert_sorted x l).
Proof.
  induction l as [|y l IH]; simpl; intros H.
  - repeat constructor.
  - inversion H as [|? ? Hs Hhd]; subst.
    destruct (Qle_bool (cmp_counts y x) 0) eqn:E; simpl.
    + apply cmp_counts_le in E.
      constructor; [apply IH; exact Hs | apply insert_sorted_hd; assumption].
    + assert (Hxy : desc x y).
      { unfold desc. destruct (Qlt_le_dec (snd y) (snd x)) as [Hlt|Hle];
          [apply Qlt_le_weak; exact Hlt|].
        apply cmp_counts_le in Hle. congruence. }
      constructor; [exact H | constructor; exact Hxy].
Qed.

Lemma statusesSorted_spec entries :
  Sorted desc (statusesSorted entries) /\ Permutation entries (statusesSorted entries).
Proof.
  unfold statusesSorted.
  assert (Hg : forall acc, Sorted desc acc ->
            Sorted desc (fold_left (fun acc x => insert_sorted x acc) entries acc) /\
            Permutation (acc ++ entries) (fold_left (fun acc x => insert_sorted x acc) entries acc)).
  { induction entries as [|x rest IH]; intros acc Hacc; simpl.
    - rewrite app_nil_r. split; [exact Hacc | reflexivity].
    - destruct (IH (insert_sorted x acc) (insert_sorted_sorted x acc Hacc)) as [H1 H2].
      split; [exact H1|].
      rewrite <- H2. rewrite <- insert_sorted_perm.
      symmetry. apply Permutation_middle. }
  exact (Hg [] (Sorted_nil _)).
Qed.

(** [Math.max(...xs, 1)] is one of its arguments and bounds all of them. *)
Lemma Qmax_choice a b : Qmax a b = a \/ Qmax a b = b.
Proof. unfold Qmax, GenericMinMax.gmax. destruct (Qcompare a b); auto. Qed.

Lemma fold_max_in xs : In (fold_right Qmax 1 xs) (1 :: xs).
Proof.
  induction xs as [|x xs IH]; simpl; [left; reflexivity|].
  destruct (Qmax_choice x (fold_right Qmax 1 xs)) as [E|E]; rewrite E.
  - right; left; reflexivity.
  - destruct IH as [E'|E']; [left; exact E' | right; right; exact E'].
Qed.

Lemma fold_max_ub xs y : In y (1 :: xs) -> y <= fold_right Qmax 1 xs.
Proof.
  induction xs as [|x xs IH]; simpl; intros H.
  - destruct H as [<-|[]]. apply Qle_refl.
  - apply Qle_trans with (Qmax x (fold_right Qmax 1 xs)); [|apply Qle_refl].
    destruct H as [<-|[<-|H]].
    + apply Qle_trans with (fold_right Qmax 1 xs); [apply IH; left; reflexivity|].
      apply Q.le_max_r.
    + apply Q.le_max_l.
    + apply Qle_trans with (fold_right Qmax 1 xs); [apply IH; right; exact H|].
      apply Q.le_max_r.
Qed.

Lemma maxCount_eq entries M :
  (exists st, In (st, M) entries) ->
  (forall st c, In (st, c) entries -> c <= M) ->
  maxCount (statusesSorted entries) == Qmax M 1.
Proof.
  intros [st0 HM] Hub. unfold maxCount.
  destruct (statusesSorted_spec entries) as [_ Hp].
  set (xs := map snd (statusesSorted entries)).
  assert (Hin : forall c, In c xs -> exists st, In (st, c) entries).
  { intros c Hc. unfold xs in Hc. apply in_map_iff in Hc as [[st c'] [Ec Hc]].
    simpl in Ec; subst c'. exists st. eapply Permutation_in; [symmetry; exact Hp | exact Hc]. }
  apply Qle_antisym.
  - destruct (fold_max_in xs) as [E|E]; [rewrite <- E; apply Q.le_max_r|].
    destruct (Hin _ E) as [st Hst]. apply Qle_trans with M; [eapply Hub; exact Hst|].
    apply Q.le_max_l.
  - apply Q.max_lub; apply fold_max_ub; [right|left; reflexivity].
    unfold xs. apply in_map_iff. exists (st0, M). split; [reflexivity|].
    eapply Permutation_in; [exact Hp | exact HM].
Qed.

Lemma summary_rows_dbl_pairs entries :
  map (fun '(st, c, _) => (st, c)) (summary_rows_dbl entries) = statusesSorted entries.
Proof.
  unfold summary_rows_dbl. rewrite map_map.
  generalize (maxCount (statusesSorted entries)) as mx. intros mx.
  induction (statusesSorted entries) as [|[st c] l IH]; simpl; [reflexivity|].
  f_equal. exact IH.
Qed.

(** C5 (counterexample): the bar is not always [round(100 * c / max)]: a
    count of 29 against a maximum of 200 is drawn at 14%, because
    [(29 / 200) * 100] evaluates to 14.499999999999998 in double precision,
    while [round(100 * 29 / 200)] is 15. *)
Lemma C5_bar_not_exact :
  summary_rows_dbl [("A", 29); ("B", 200)]
    = [("B", 200, Some 100%Z); ("A", 29, Some 14%Z)] /\
  round (100 * 29 / 200) = 15%Z.
Proof. split; vm_compute; reflexivity. Qed.

(** C5 (amended): the summary lists the (status, count) pairs of
    [status_counts] in order of descending count; the bar of a status with
    count [c] is [Math.round((c / mx) * 100)] with the division and the
    multiplication rounded to double precision, where [mx] is the largest
    count or 1 when all counts are below 1, so an all-zero result does not
    divide by zero.  For [{A: 5, B: 10, C: 0}] the rows are B 100%, A 50%,
    C 0%; an all-zero result has 0% bars; and 29 against a maximum of 200
    gives 14%, not [round(100 * 29 / 200) = 15]. *)
Theorem C5_summary_double : forall (entries : list (string * Q)) (M : Q),
  (exists st, In (st, M) entries) ->
  (forall st c, In (st, c) entries -> c <= M) ->
  let mx := maxCount (statusesSorted entries) in
  Sorted desc (statusesSorted entries) /\
  Permutation entries (statusesSorted entries) /\
  map (fun '(st, c, _) => (st, c)) (summary_rows_dbl entries) = statusesSorted entries /\
  In mx (1 :: map snd entries) /\
  mx == Qmax M 1 /\
  (forall st c pc, In (st, c, pc) (summary_rows_dbl entries) -> pc = pct_dbl c mx) /\
  summary_rows_dbl [("A", 5); ("B", 10); ("C", 0)]
    = [("B", 10, Some 100%Z); ("A", 5, Some 50%Z); ("C", 0, Some 0%Z)] /\
  summary_rows_dbl [("A", 0); ("B", 0)] = [("A", 0, Some 0%Z); ("B", 0, Some 0%Z)] /\
  summary_rows_dbl [("A", 29); ("B", 200)] = [("B", 200, Some 100%Z); ("A", 29, Some 14%Z)] /\
  round (100 * 29 / 200) = 15%Z.
Proof.
  intros entries M HM Hub mx.
  destruct (statusesSorted_spec entries) as [Hs Hp].
  split; [exact Hs|]. split; [exact Hp|].
  split; [apply summary_rows_dbl_pairs|].
  split.
  { unfold mx, maxCount. destruct (fold_max_in (map snd (statusesSorted entries))) as [E|E].
    - left. exact E.
    - right. eapply Permutation_in; [|exact E].
      apply Permutation_map. symmetry. exact Hp. }
  split; [apply (maxCount_eq entries M HM Hub)|].
  split.
  { intros st c pc Hin. unfold summary_rows_dbl in Hin.
    apply in_map_iff in Hin as [[st' c'] [E _]]. injection E as <- <- <-.
    reflexivity. }
  split; [vm_compute; reflexivity|].
  split; [vm_compute; reflexivity|].
  split; vm_compute; reflexivity.
Qed.

Lemma C5_summary_double_witness :
  let entries := [("MATCHED", 7); ("EXCHANGE_ONLY", 0); ("PSP_ONLY", 3)] in
  summary_rows_dbl entries
    = [("MATCHED", 7, Some 100%Z); ("PSP_ONLY", 3, Some 43%Z); ("EXCHANGE_ONLY", 0, Some 0%Z)] /\
  maxCount (statusesSorted entries) == 7 /\
  (forall st c pc, In (st, c, pc) (summary_rows_dbl entries) ->
     pc = pct_dbl c (maxCount (statusesSorted entries))).
Proof.
  intros entries. split; [vm_compute; reflexivity|].
  destruct (C5_summary_double entries 7) as (_ & _ & _ & _ & H1 & H2 & _).
  - exists "MATCHED". left. reflexivity.
  - intros st c Hin. simpl in Hin.
    destruct Hin as [E|[E|[E|[]]]]; injection E as _ <-; vm_compute; discriminate.
  - split; [exact H1 | exact H2].
Defined.

(** *** Upload progress *)

Lemma inject_Z_nonzero z : (z <> 0)%Z -> ~ inject_Z z == 0.
Proof. intros Hz H. unfold Qeq in H; simpl in H. lia. Qed.



(** *** CSV export *)

Lemma map_elem_to_string_str apps : map elem_to_string (map JStr apps) = apps.
Proof. induction apps as [|a apps IH]; simpl; [reflexivity|]. now rewrite IH. Qed.

(** C6: for a status whose cached application list is the array of strings
    [a1, ..., an], the exported file is ["{status}_applications.csv"] and its
    content is the header line ["applicationNumber"], a newline, and the
    numbers joined by newlines; for a non-empty list this is exactly the
    newline-join of the header and the numbers (for an empty list it is the
    header line with its newline).  After the upload answered with
    [status_applications: {"PENDING": ["A1","A2"]}], exporting "PENDING"
    gives ["applicationNumber\nA1\nA2"]. *)
Theorem C6_csv_export : forall s status apps,
  member (statusAppsCache s) status = Some (Some (JArr (map JStr apps))) ->
  downloadStatusCSV s status
    = Some (status ++ "_applications.csv", "applicationNumber" ++ nl ++ join nl apps) /\
  (apps <> [] ->
   downloadStatusCSV s status
    = Some (status ++ "_applications.csv", join nl ("applicationNumber" :: apps))) /\
  (apps = [] ->
   downloadStatusCSV s status
    = Some (status ++ "_applications.csv", "applicationNumber" ++ nl)) /\
  downloadStatusCSV after_first_upload "PENDING"
    = Some ("PENDING_applications.csv", "applicationNumber" ++ nl ++ "A1" ++ nl ++ "A2").
Proof.
  intros s status apps H.
  assert (Hd : downloadStatusCSV s status
    = Some (status ++ "_applications.csv", "applicationNumber" ++ nl ++ join nl apps)).
  { assert (Hg : getApps s status = JArr (map JStr apps)).
    { unfold getApps. rewrite H.
      destruct (statusAppsCache s); simpl in H |- *; try reflexivity; try discriminate;
        destruct (inherited status); discriminate. }
    unfold downloadStatusCSV. rewrite Hg. simpl.
    rewrite map_elem_to_string_str. reflexivity. }
  split; [exact Hd|]. split; [|split].
  - intros Hne. rewrite Hd. destruct apps as [|a rest]; [congruence|]. reflexivity.
  - intros ->. rewrite Hd. reflexivity.
  - vm_compute. reflexivity.
Qed.

Lemma C6_csv_export_witness :
  downloadStatusCSV after_first_upload "PENDING"
    = Some ("PENDING_applications.csv", join nl ["applicationNumber"; "A1"; "A2"]).
Proof.
  destruct (C6_csv_export after_first_upload "PENDING" ["A1"; "A2"])
    as (_ & H & _ & _).
  - vm_compute. reflexivity.
  - apply H. discriminate.
Defined.

End Props.

(* ------------------------------------------------------------------------- *)
(** ** Further properties of the component *)

Module Extra.
Import Js App Props.

(** Clear resets the selection, the result, the error, the progress and the
    application cache, and changes neither readiness nor [loading] and sends
    nothing.  A status that is not a member name of [Object.prototype] then
    has an empty list and exports a header-only CSV; for a name such as
    ["constructor"] or ["toString"] the empty cache [{}] still yields the
    inherited member, and the export throws at [apps.join]. *)
Theorem clearAll_resets : forall s st,
  let s' := clearAll s in
  exchangeFile s' = None /\ pspFile s' = None /\ result s' = JNull /\
  error s' = None /\ progress s' = 0%Z /\
  getApps s' st = (if inherited st then proto_member else JArr []) /\
  downloadStatusCSV s' st
    = (if inherited st then None
       else Some (st ++ "_applications.csv", "applicationNumber" ++ nl)) /\
  isBackendReady s' = isBackendReady s /\ loading s' = loading s /\
  network s' = network s.
Proof.
  intros s st. repeat split;
    unfold downloadStatusCSV, getApps; simpl; destruct (inherited st); reflexivity.
Qed.

(** Run Reconciliation right after Clear reports the missing files and sends
    no request. *)
Theorem clear_then_upload : forall API_URL s,
  let s' := upload API_URL (clearAll s) in
  error s' = Some msg_missing_files /\ network s' = network s /\ result s' = JNull.
Proof. intros API_URL s. repeat split. Qed.

(** Choosing or dropping a file selects the first file of the list and
    changes nothing else; an empty or absent list (a cancelled dialog, a drop
    without files) keeps the previous selection, for both inputs and both
    ways of choosing. *)
Theorem file_selection : forall API_URL s f fs o,
  isBackendReady s = true ->
  o = None \/ o = Some [] ->
  ui_step API_URL (ChooseExchange (Some (f :: fs))) s = setExchangeFile f s /\
  ui_step API_URL (DropExchange (Some (f :: fs))) s = setExchangeFile f s /\
  ui_step API_URL (ChoosePsp (Some (f :: fs))) s = setPspFile f s /\
  ui_step API_URL (DropPsp (Some (f :: fs))) s = setPspFile f s /\
  ui_step API_URL (ChooseExchange o) s = s /\
  ui_step API_URL (DropExchange o) s = s /\
  ui_step API_URL (ChoosePsp o) s = s /\
  ui_step API_URL (DropPsp o) s = s /\
  exchangeFile (setExchangeFile f s) = Some f /\
  pspFile (setExchangeFile f s) = pspFile s /\
  result (setExchangeFile f s) = result s /\
  network (setExchangeFile f s) = network s /\
  pspFile (setPspFile f s) = Some f /\
  exchangeFile (setPspFile f s) = exchangeFile s /\
  result (setPspFile f s) = result s /\
  network (setPspFile f s) = network s.
Proof.
  intros API_URL s f fs o H Ho. unfold ui_step. rewrite H. simpl.
  destruct Ho as [-> | ->]; repeat split.
Qed.

Lemma file_selection_witness :
  ui_step DEFAULT_URL (DropPsp (Some [psp_csv; exchange_csv])) ready_with_files
    = setPspFile psp_csv ready_with_files /\
  ui_step DEFAULT_URL (ChooseExchange None) ready_with_files = ready_with_files.
Proof.
  destruct (file_selection DEFAULT_URL ready_with_files psp_csv [exchange_csv] None
              eq_refl (or_introl eq_refl)) as (_ & _ & _ & H1 & H2 & _).
  split; [exact H1 | exact H2].
Defined.

(** Until the warm-up probe has settled, every control of the upload form is
    disabled: no file choice, drop, upload or clear changes the state. *)
Theorem not_ready_ignores_input : forall API_URL a s,
  isBackendReady s = false -> ui_step API_URL a s = s.
Proof.
  intros API_URL a s H. unfold ui_step. rewrite H.
  destruct a; simpl; try reflexivity. now rewrite orb_true_r.
Qed.

Lemma not_ready_ignores_input_witness :
  let s := mkState false (Some exchange_csv) (Some psp_csv) false 0 JNull None None 1
             (JObj []) [] in
  ui_step DEFAULT_URL ClickUpload s = s.
Proof. intros s. apply not_ready_ignores_input. reflexivity. Defined.



(** [loading] stays set through progress events and is cleared by the load
    (whatever its status) or the network error that completes the request. *)
Theorem loading_lifecycle : forall s evs st stt txt,
  forallb (fun e => match e with XhrProgress _ _ _ => true | _ => false end) evs = true ->
  loading (run_xhr evs s) = loading s /\
  loading (on_xhr (XhrLoad st stt txt) s) = false /\
  loading (on_xhr XhrError s) = false.
Proof.
  intros s evs st stt txt H. split.
  - revert s; induction evs as [|e evs IH]; intros s; simpl in *; [reflexivity|].
    destruct e as [lc l t| |]; try discriminate.
    rewrite IH by exact H. unfold on_xhr, onprogress. destruct lc; reflexivity.
  - split; [|reflexivity]. unfold on_xhr, onload.
    destruct ((200 <=? st)%Z && (st <? 300)%Z); [|reflexivity].
    destruct (JSON_parse txt) as [j|]; [|reflexivity].
    destruct (member j "status_applications") as [[v|]|]; simpl;
      try reflexivity. destruct (truthy v); reflexivity.
Qed.

Lemma loading_lifecycle_witness :
  loading (run_xhr [XhrProgress true 10 100; XhrProgress false 0 0]
             (upload DEFAULT_URL ready_with_files)) = true.
Proof.
  destruct (loading_lifecycle (upload DEFAULT_URL ready_with_files)
              [XhrProgress true 10 100; XhrProgress false 0 0] 200 "OK" "" eq_refl)
    as (H & _). rewrite H. reflexivity.
Defined.

(** An HTTP error status or a network error sets the error message and
    leaves the result and the application cache alone; a failed status shows
    the response body, or the status text when the body is empty. *)
Theorem failure_keeps_result_and_cache : forall s st stt txt,
  ~ (200 <= st < 300)%Z ->
  let s1 := on_xhr (XhrLoad st stt txt) s in
  let s2 := on_xhr XhrError s in
  result s1 = result s /\ statusAppsCache s1 = statusAppsCache s /\
  error s1 = Some ("Upload failed (" ++ Z_to_string st ++ "): "
                   ++ (if String.eqb txt "" then stt else txt)) /\
  result s2 = result s /\ statusAppsCache s2 = statusAppsCache s /\
  error s2 = Some msg_network.
Proof.
  intros s st stt txt Hst. simpl. unfold onload.
  replace ((200 <=? st)%Z && (st <? 300)%Z) with false.
  - simpl. destruct (String.eqb txt ""); repeat split.
  - symmetry. apply Bool.not_true_iff_false. intros Hb.
    apply andb_prop in Hb as [H1 H2]. apply Z.leb_le in H1. apply Z.ltb_lt in H2. lia.
Qed.

Lemma failure_keeps_result_and_cache_witness :
  error (on_xhr (XhrLoad 502 "Bad Gateway" "") after_first_upload)
    = Some "Upload failed (502): Bad Gateway".
Proof.
  destruct (failure_keeps_result_and_cache after_first_upload 502 "Bad Gateway" ""
              ltac:(lia)) as (_ & _ & H & _).
  rewrite H. reflexivity.
Defined.

(** A 2xx response whose body is the JSON [null] stores [null] and reports
    invalid JSON (reading [json.status_applications] throws), leaving the
    cache as it was. *)
Theorem null_body : forall s st stt txt,
  (200 <= st < 300)%Z -> JSON_parse txt = Some JNull ->
  let s1 := onload st stt txt s in
  result s1 = JNull /\ error s1 = Some msg_invalid_json /\
  statusAppsCache s1 = statusAppsCache s.
Proof.
  intros s st stt txt [H1 H2] Hp. unfold onload.
  replace ((200 <=? st)%Z && (st <? 300)%Z) with true
    by (symmetry; apply andb_true_intro; split; [apply Z.leb_le | apply Z.ltb_lt]; lia).
  rewrite Hp. repeat split.
Qed.

Lemma null_body_witness :
  error (onload 200 "OK" " null " after_first_upload) = Some msg_invalid_json.
Proof.
  destruct (null_body after_first_upload 200 "OK" " null " ltac:(lia) eq_refl)
    as (_ & H & _). exact H.
Defined.

(** A successful upload whose response object has a [status_applications]
    object stores the response, leaves no error, and serves, for every
    status with an array there, exactly that array. *)
Theorem success_populates_cache : forall API_URL s ef pf st stt txt fs m,
  exchangeFile s = Some ef -> pspFile s = Some pf ->
  (200 <= st < 300)%Z -> JSON_parse txt = Some (JObj fs) ->
  obj_get fs "status_applications" = Some (JObj m) ->
  let s1 := onload st stt txt (upload API_URL s) in
  result s1 = JObj fs /\ error s1 = None /\ loading s1 = false /\
  statusAppsCache s1 = JObj m /\
  (forall status xs, obj_get m status = Some (JArr xs) -> getApps s1 status = JArr xs).
Proof.
  intros API_URL s ef pf st stt txt fs m He Hp [H1 H2] Hj Hsa.
  unfold upload. simpl exchangeFile. simpl pspFile. rewrite He, Hp.
  unfold onload.
  replace ((200 <=? st)%Z && (st <? 300)%Z) with true
    by (symmetry; apply andb_true_intro; split; [apply Z.leb_le | apply Z.ltb_lt]; lia).
  rewrite Hj. simpl member. rewrite Hsa. simpl truthy. cbv iota.
  simpl.
  repeat split. intros status xs Hx. unfold getApps. simpl. rewrite Hx. reflexivity.
Qed.

Lemma success_populates_cache_witness :
  getApps after_first_upload "PENDING" = JArr [JStr "A1"; JStr "A2"].
Proof.
  destruct (success_populates_cache DEFAULT_URL ready_with_files exchange_csv psp_csv
     200 "OK" response_pending
     [("exchange_unique_count", JNum 2); ("status_counts", JObj [("PENDING", JNum 2)]);
      ("status_applications", JObj [("PENDING", JArr [JStr "A1"; JStr "A2"])])]
     [("PENDING", JArr [JStr "A1"; JStr "A2"])]
     eq_refl eq_refl ltac:(lia) ltac:(vm_compute; reflexivity) eq_refl)
    as (_ & _ & _ & _ & H).
  apply H. reflexivity.
Defined.

(** *** Status summary *)

Definition count_is (c : Q) (e : string * Q) : bool := Qeq_bool (snd e) c.

Lemma desc_trans : Relations_1.Transitive desc.
Proof. intros a b c H1 H2. unfold desc in *. lra. Qed.

Lemma sorted_head_max y l : Sorted desc (y :: l) -> forall z, In z (y :: l) -> snd z <= snd y.
Proof.
  intros H z Hz. apply Sorted_StronglySorted in H; [|exact desc_trans].
  inversion H as [|? ? _ Hf]; subst.
  destruct Hz as [<-|Hz]; [apply Qle_refl|].
  rewrite Forall_forall in Hf. exact (Hf z Hz).
Qed.

Lemma filter_count_below c l :
  (forall z, In z l -> snd z < c) -> filter (count_is c) l = [].
Proof.
  induction l as [|z l IH]; simpl; intros H; [reflexivity|].
  unfold count_is at 1.
  replace (Qeq_bool (snd z) c) with false.
  - apply IH. intros z' Hz'. apply H. right. exact Hz'.
  - symmetry. apply Bool.not_true_iff_false. rewrite Qeq_bool_iff.
    specialize (H z (or_introl eq_refl)). lra.
Qed.

Lemma filter_insert_sorted c x l : Sorted desc l ->
  filter (count_is c) (insert_sorted x l)
  = (filter (count_is c) l ++ (if count_is c x then [x] else []))%list.
Proof.
  induction l as [|y l IH]; intros Hs.
  - simpl. destruct (count_is c x); reflexivity.
  - cbn [insert_sorted]. destruct (Qle_bool (cmp_counts y x) 0) eqn:E; cbn [negb].
    + inversion Hs; subst. cbn [filter]. rewrite IH by assumption.
      destruct (count_is c y); reflexivity.
    + change (filter (count_is c) (x :: y :: l))
        with (if count_is c x then x :: filter (count_is c) (y :: l)
              else filter (count_is c) (y :: l)).
      destruct (count_is c x) eqn:Ex.
      * assert (Hlt : snd y < snd x).
        { destruct (Qlt_le_dec (snd y) (snd x)) as [H|H]; [exact H|].
          apply cmp_counts_le in H. congruence. }
        unfold count_is in Ex. apply Qeq_bool_iff in Ex.
        rewrite (filter_count_below c (y :: l)); [reflexivity|].
        intros z Hz. pose proof (sorted_head_max y l Hs z Hz). lra.
      * rewrite app_nil_r. reflexivity.
Qed.

(** The summary sort is stable: the statuses that share a count appear in
    the order of [status_counts]. *)
Theorem statusesSorted_stable : forall entries c,
  filter (count_is c) (statusesSorted entries) = filter (count_is c) entries.
Proof.
  intros entries c. unfold statusesSorted.
  assert (G : forall acc, Sorted desc acc ->
    filter (count_is c) (fold_left (fun acc x => insert_sorted x acc) entries acc)
    = (filter (count_is c) acc ++ filter (count_is c) entries)%list).
  { induction entries as [|x rest IH]; intros acc Hacc; simpl.
    - rewrite app_nil_r. reflexivity.
    - rewrite IH by (apply insert_sorted_sorted; exact Hacc).
      rewrite filter_insert_sorted by exact Hacc.
      rewrite <- app_assoc. destruct (count_is c x); reflexivity. }
  apply G. constructor.
Qed.




(** *** Paginated detail view *)

Lemma firstn_app_skipn {A} a b (l : list A) :
  (firstn a l ++ firstn b (skipn a l))%list = firstn (a + b) l.
Proof.
  revert l. induction a as [|a IH]; intros [|x l]; simpl; try reflexivity.
  - rewrite firstn_nil. reflexivity.
  - f_equal. apply IH.
Qed.

Lemma pages_prefix {A} (l : list A) k :
  (k <= Z.to_nat (totalPages l))%nat ->
  concat (map (fun j => visiblePageItems l (Z.of_nat j)) (seq 1 k))
  = firstn (Z.to_nat (Z.min (Z.of_nat k * 50) (Z.of_nat (length l)))) l.
Proof.
  destruct (totalPages_spec l) as (H1 & H2 & H3).
  set (n := Z.of_nat (length l)) in *.
  induction k as [|k IH]; intros Hk.
  - simpl. rewrite Z.min_l by lia. reflexivity.
  - assert (Hk50 : (Z.of_nat k * 50 <= n)%Z).
    { destruct (Z.eq_dec n 0) as [E|E].
      - specialize (H2 E). lia.
      - specialize (H3 ltac:(lia)). lia. }
    rewrite seq_S, map_app, concat_app, IH by lia.
    cbn [map concat]. rewrite app_nil_r.
    rewrite visiblePageItems_eq by lia. fold n.
    replace ((Z.of_nat (1 + k) - 1) * 50)%Z with (Z.of_nat k * 50)%Z by lia.
    rewrite (Z.min_l (Z.of_nat k * 50)) by exact Hk50.
    rewrite firstn_app_skipn. f_equal.
    rewrite <- Z2Nat.inj_add by lia. f_equal. lia.
Qed.

(** Walking the detail view from page 1 to page [totalPages] shows every
    application of the status exactly once, in order: the pages concatenate
    to the whole list.  (For the empty list the single page is empty.) *)
Theorem pages_cover : forall (A : Type) (l : list A),
  concat (map (fun j => visiblePageItems l (Z.of_nat j))
            (seq 1 (Z.to_nat (totalPages l)))) = l.
Proof.
  intros A l. rewrite pages_prefix by lia.
  destruct (totalPages_spec l) as (H1 & H2 & H3).
  rewrite Z2Nat.id by lia.
  rewrite Z.min_r.
  - rewrite Nat2Z.id. apply firstn_all.
  - destruct (Z.eq_dec (Z.of_nat (length l)) 0) as [E|E].
    + rewrite (H2 E), E. lia.
    + specialize (H3 ltac:(lia)). lia.
Qed.

Lemma first_page {A} (xs : list A) : visiblePageItems xs 1 = firstn 50 xs.
Proof.
  destruct (totalPages_spec xs) as (H1 & _ & _).
  rewrite visiblePageItems_eq by lia. simpl skipn.
  destruct (Nat.le_ge_cases 50 (length xs)) as [H|H].
  - rewrite Z.min_l by lia. reflexivity.
  - rewrite Z.min_r by lia.
    rewrite Z.sub_0_r, Nat2Z.id, !firstn_all2 by lia. reflexivity.
Qed.

(** [openStatus(status)] shows the first 50 applications of that status on
    page 1, whatever page was open before; [closeStatus()] leaves nothing to
    show.  Neither touches the result, the error or the cache. *)
Theorem open_close_modal : forall s status xs,
  getApps s status = JArr xs ->
  page (openStatus status s) = 1%Z /\
  visibleApps (openStatus status s) = JArr xs /\
  modalPageItems (openStatus status s) = Some (firstn 50 xs) /\
  modalPageItems (closeStatus (openStatus status s)) = Some [] /\
  result (openStatus status s) = result s /\
  error (openStatus status s) = error s /\
  statusAppsCache (openStatus status s) = statusAppsCache s /\
  statusAppsCache (closeStatus s) = statusAppsCache s.
Proof.
  intros s status xs H.
  assert (Hv : visibleApps (openStatus status s) = JArr xs) by exact H.
  repeat split; try reflexivity; try exact Hv.
  unfold modalPageItems. rewrite Hv. simpl page. rewrite first_page. reflexivity.
Qed.

Lemma open_close_modal_witness :
  modalPageItems (openStatus "PENDING" (setPage 3 after_first_upload))
  = Some [JStr "A1"; JStr "A2"].
Proof.
  destruct (open_close_modal (setPage 3 after_first_upload) "PENDING"
              [JStr "A1"; JStr "A2"] ltac:(vm_compute; reflexivity))
    as (_ & _ & H & _).
  exact H.
Defined.

(** *** File sizes *)

Lemma hr_loop_spec f num i :
  (i <= 3)%nat -> (3 <= i + f)%nat ->
  let '(num', i') := hr_loop f num i in
  num' * Nat.iter (i' - i) (Qmult 1024) 1 == num /\
  (i <= i' <= 3)%nat /\
  (num' < 1024 \/ i' = 3%nat) /\
  ((i < i')%nat -> 1 <= num').
Proof.
  revert num i. induction f as [|f IH]; intros num i Hi Hf.
  - simpl. rewrite Nat.sub_diag. simpl.
    split; [ring|]. split; [lia|]. split; [right; lia | intros; lia].
  - simpl hr_loop. cbn [units length Nat.sub].
    destruct (Qle_bool 1024 num) eqn:E1; destruct (i <? 3)%nat eqn:E2;
      cbn [andb].
    + apply Qle_bool_iff in E1. apply Nat.ltb_lt in E2.
      specialize (IH (num / 1024) (S i) ltac:(lia) ltac:(lia)).
      destruct (hr_loop f (num / 1024) (S i)) as [num' i'] eqn:Eh.
      destruct IH as (Heq & Hr & Hlt & Hge). cbv beta iota.
      replace (i' - i)%nat with (S (i' - S i)) by lia.
      split; [|split; [lia|split; [exact Hlt|]]].
      * cbn [Nat.iter].
        setoid_replace (num' * (1024 * Nat.iter (i' - S i) (Qmult 1024) 1))
          with (1024 * (num' * Nat.iter (i' - S i) (Qmult 1024) 1)) by ring.
        rewrite Heq. field.
      * intros _. destruct (Nat.eq_dec i' (S i)) as [Ei|Ei].
        -- subst i'. rewrite Nat.sub_diag in Heq. change (Nat.iter 0 (Qmult 1024) 1) with 1 in Heq.
           assert (Hd : 1 <= num / 1024) by (apply Qle_shift_div_l; lra).
           lra.
        -- apply Hge. lia.
    + apply Nat.ltb_ge in E2. rewrite Nat.sub_diag. simpl.
      split; [ring|]. split; [lia|]. split; [right; lia | intros; lia].
    + rewrite Nat.sub_diag. simpl.
      assert (Hn : ~ 1024 <= num) by (intros Hc; apply Qle_bool_iff in Hc; congruence).
      split; [ring|]. split; [lia|].
      split; [left; apply Qnot_le_lt; exact Hn | intros; lia].
    + rewrite Nat.sub_diag. simpl.
      assert (Hn : ~ 1024 <= num) by (intros Hc; apply Qle_bool_iff in Hc; congruence).
      split; [ring|]. split; [lia|].
      split; [left; apply Qnot_le_lt; exact Hn | intros; lia].
Qed.

Lemma append_space_not_dash t u : (t ++ " " ++ u)%string <> "-"%string.
Proof. destruct t as [|c [|c' t']]; simpl; discriminate. Qed.

(** [humanReadable(bytes)]: a missing size prints ["-"]; any number (also
    0) prints [num.toFixed(1)] and a unit, where [num * 1024^i = bytes],
    [i <= 3] picks the unit among B, KB, MB, GB, [num < 1024] unless the
    unit is GB, and [num >= 1] once a larger unit was chosen. *)
Theorem humanReadable_format :
  humanReadable None = "-"%string /\
  forall b, exists num i,
    humanReadable (Some b) = (toFixed1 num ++ " " ++ nth i units "")%string /\
    num * Nat.iter i (Qmult 1024) 1 == b /\
    (i <= 3)%nat /\
    (num < 1024 \/ i = 3%nat) /\
    ((0 < i)%nat -> 1 <= num) /\
    humanReadable (Some b) <> "-"%string.
Proof.
  split; [reflexivity|]. intros b.
  pose proof (hr_loop_spec 3 b 0 ltac:(lia) ltac:(lia)) as Hl.
  assert (Hh : humanReadable (Some b)
               = (let '(num, i) := hr_loop 3 b 0 in
                  toFixed1 num ++ " " ++ nth i units "")%string).
  { unfold humanReadable, truthy.
    destruct (Qeq_bool b 0); reflexivity. }
  destruct (hr_loop 3 b 0) as [num i].
  rewrite Nat.sub_0_r in Hl. destruct Hl as (Heq & Hr & Hlt & Hge).
  exists num, i. rewrite Hh.
  repeat split; try lia; try assumption.
  apply append_space_not_dash.
Qed.

End Extra.
